(** * Dispenser: a shallow embedding of [Dispenser.cpp]

    The C++ class [Dispenser] keeps a [std::vector<Hopper*>], a cached
    [size] and a [current_index].  Its member functions are embedded as
    computations in a small monad that threads the object, records the
    calls to [softServoWrite], and distinguishes a thrown
    [std::out_of_range] from the undefined behaviours the C++ text can
    reach ([%] by zero, signed overflow, vector access outside its
    bounds). *)

From Stdlib Require Import ZArith Lia.
From stdpp Require Import base list strings.

Local Open Scope Z_scope.

(** ** The C++ type [int] *)

Module CInt.

Definition INT_MAX : Z := 2147483647.
Definition INT_MIN : Z := -2147483648.

Definition in_range (z : Z) : Prop := INT_MIN <= z <= INT_MAX.

Definition in_rangeb (z : Z) : bool := (INT_MIN <=? z) && (z <=? INT_MAX).

(** Conversion of a wider integer ([ptrdiff_t]) to [int]: the value
    modulo 2^32, read as a signed number. *)
Definition narrow (z : Z) : Z := (z + 2 ^ 31) mod 2 ^ 32 - 2 ^ 31.

End CInt.

(** ** Data *)

(** A [Hopper*]: only the identity of the pointer matters, so it is an
    address; [0] is the null pointer. *)
Definition Hopper_ptr : Type := N.

(** The private members of [class Dispenser]. *)
Record Dispenser : Type := mkDispenser {
  hoppers : list Hopper_ptr;
  size : Z;
  current_index : Z
}.

(** One call [softServoWrite(pin, value)]. *)
Definition servo_write : Type := (Z * Z)%type.

Inductive exception : Type :=
| out_of_range (what : string).

Inductive undefined_behaviour : Type :=
| DivisionByZero
| SignedOverflow
| OutOfBounds.

(** The outcome of a member function: normal return, an exception that
    leaves the function, or undefined behaviour.  The first two carry the
    object as it is at that point and the servo writes issued so far. *)
Inductive result (A : Type) : Type :=
| Ok (a : A) (d : Dispenser) (w : list servo_write)
| Throw (e : exception) (d : Dispenser) (w : list servo_write)
| Undefined (u : undefined_behaviour).

Arguments Ok {A} a d w.
Arguments Throw {A} e d w.
Arguments Undefined {A} u.

(** ** The monad of member functions *)

Definition M (A : Type) : Type := Dispenser -> result A.

Definition ret {A : Type} (a : A) : M A := fun d => Ok a d [].

Definition bind {A B : Type} (m : M A) (k : A -> M B) : M B := fun d =>
  match m d with
  | Ok a d1 w1 =>
      match k a d1 with
      | Ok b d2 w2 => Ok b d2 (w1 ++ w2)
      | Throw e d2 w2 => Throw e d2 (w1 ++ w2)
      | Undefined u => Undefined u
      end
  | Throw e d1 w1 => Throw e d1 w1
  | Undefined u => Undefined u
  end.

Declare Scope cpp_scope.
Delimit Scope cpp_scope with cpp.

Notation "x <- m ;; k" := (bind m (fun x => k))
  (at level 100, m at next level, right associativity) : cpp_scope.
Notation "m ;; k" := (bind m (fun _ => k))
  (at level 100, right associativity) : cpp_scope.

Local Open Scope cpp_scope.

(** [*this] *)
Definition this : M Dispenser := fun d => Ok d d [].

Definition throw {A : Type} (e : exception) : M A := fun d => Throw e d [].

Definition undefined {A : Type} (u : undefined_behaviour) : M A :=
  fun _ => Undefined u.

Definition set_hoppers (v : list Hopper_ptr) : M unit := fun d =>
  Ok tt (mkDispenser v (size d) (current_index d)) [].

Definition set_size (n : Z) : M unit := fun d =>
  Ok tt (mkDispenser (hoppers d) n (current_index d)) [].

Definition set_current_index (i : Z) : M unit := fun d =>
  Ok tt (mkDispenser (hoppers d) (size d) i) [].

(** The external call [softServoWrite(pin, value)]. *)
Definition softServoWrite (pin value : Z) : M unit := fun d =>
  Ok tt d [(pin, value)].

(** [a + b] on [int]: overflow is undefined. *)
Definition int_add (a b : Z) : M Z :=
  if CInt.in_rangeb (a + b) then ret (a + b) else undefined SignedOverflow.

(** [a % b] on [int]: the remainder of the division that truncates
    towards zero, so it has the sign of [a]. *)
Definition int_mod (a b : Z) : M Z :=
  if b =? 0 then undefined DivisionByZero
  else if (a =? CInt.INT_MIN) && (b =? -1) then undefined SignedOverflow
  else ret (Z.rem a b).

(** ** [std::vector<Hopper*>] *)

(** [v[k]] with an [int] index: outside [0 <= k < v.size()] the access
    is undefined. *)
Definition vector_at (v : list Hopper_ptr) (k : Z) : M Hopper_ptr :=
  if k <? 0 then undefined OutOfBounds
  else match v !! Z.to_nat k with
       | Some h => ret h
       | None => undefined OutOfBounds
       end.

(** [hoppers.push_back(h)] *)
Definition push_back (h : Hopper_ptr) : M unit :=
  d <- this ;; set_hoppers (hoppers d ++ [h]).

(** [hoppers.insert(hoppers.begin() + k, h)]: the iterator must lie in
    [begin(), end()]. *)
Definition vector_insert (k : Z) (h : Hopper_ptr) : M unit :=
  d <- this ;;
  if (k <? 0) || (Z.of_nat (length (hoppers d)) <? k)
  then undefined OutOfBounds
  else set_hoppers (take (Z.to_nat k) (hoppers d) ++ h :: drop (Z.to_nat k) (hoppers d)).

(** [hoppers.erase(hoppers.begin() + k)]: the iterator must point to an
    element. *)
Definition vector_erase (k : Z) : M unit :=
  d <- this ;;
  if (k <? 0) || (Z.of_nat (length (hoppers d)) <=? k)
  then undefined OutOfBounds
  else set_hoppers (delete (Z.to_nat k) (hoppers d)).

(** [distance(v.begin(), std::find(v.begin(), v.end(), value))]: the
    position of the first element equal to [value], and [v.size()] when
    there is none. *)
Fixpoint find_distance (v : list Hopper_ptr) (value : Hopper_ptr) : Z :=
  match v with
  | [] => 0
  | x :: v' => if N.eqb x value then 0 else 1 + find_distance v' value
  end.

(** [for (int i = first; i < first + n; i++) body(i)] for a number [n] of
    iterations known on entry. *)
Fixpoint for_loop (n : nat) (i : Z) (body : Z -> M unit) : M unit :=
  match n with
  | O => ret tt
  | S n' => body i ;; for_loop n' (i + 1) body
  end.

(** ** The member functions of [Dispenser] *)

Definition no_hoppers : exception :=
  out_of_range "Error: No hoppers available.".

(** [Dispenser::Dispenser()] *)
Definition Dispenser_new : Dispenser :=
  {| hoppers := []; size := 0; current_index := 0 |}.

(** [int Dispenser::getCurrentIndex()] *)
Definition getCurrentIndex : M Z :=
  d <- this ;; ret (current_index d).

(** [int Dispenser::getSize()] *)
Definition getSize : M Z :=
  d <- this ;; ret (size d).

(** [Hopper* Dispenser::getHopper(int index)] *)
Definition getHopper_at (index : Z) : M Hopper_ptr :=
  d <- this ;;
  if size d =? 0 then throw no_hoppers
  else
    k <- int_mod index (size d) ;;
    vector_at (hoppers d) k.

(** [Hopper* Dispenser::getHopper()] *)
Definition getHopper : M Hopper_ptr :=
  d <- this ;;
  if size d =? 0 then throw no_hoppers
  else getHopper_at (current_index d).

(** [int Dispenser::setCurrentIndex(int new_index)] *)
Definition setCurrentIndex (new_index : Z) : M Z :=
  d <- this ;;
  if size d =? 0 then throw no_hoppers
  else
    k <- int_mod new_index (size d) ;;
    set_current_index k ;;
    d' <- this ;;
    ret (current_index d').

(** [int Dispenser::nextIndex()] *)
Definition nextIndex : M Z :=
  d <- this ;;
  if size d =? 0 then throw no_hoppers
  else
    s <- int_add (current_index d) 1 ;;
    k <- int_mod s (size d) ;;
    set_current_index k ;;
    d' <- this ;;
    ret (current_index d').

(** [void Dispenser::openDispenser()].  The loop
    [for (int i = 0; i < this->size; i++)] runs [size] times (not at all
    when [size <= 0]); its increment stays below [size]. *)
Definition openDispenser : M unit :=
  d <- this ;;
  if size d =? 0 then throw no_hoppers
  else if current_index d =? 4 then
    for_loop (Z.to_nat (size d)) 0 (fun i => softServoWrite i 60)
  else
    pin <- int_add (current_index d) 5 ;;
    softServoWrite pin 60.

(** [void Dispenser::closeDispenser()] *)
Definition closeDispenser : M unit :=
  d <- this ;;
  if size d =? 0 then throw no_hoppers
  else if current_index d =? 4 then
    for_loop (Z.to_nat (size d)) 0 (fun i => softServoWrite i 0)
  else
    pin <- int_add (current_index d) 5 ;;
    softServoWrite pin 0.

(** [this->size++] *)
Definition incr_size : M unit :=
  d <- this ;;
  s <- int_add (size d) 1 ;;
  set_size s.

(** [int Dispenser::addHopper(Hopper* new_hopper, int index)] *)
Definition addHopper_at (new_hopper : Hopper_ptr) (index : Z) : M Z :=
  d <- this ;;
  if size d =? 0 then throw no_hoppers
  else
    (if index =? size d then
       push_back new_hopper ;;
       incr_size
     else
       incr_size ;;
       d1 <- this ;;
       insert_index <- int_mod index (size d1) ;;
       vector_insert insert_index new_hopper) ;;
    d2 <- this ;;
    int_mod index (size d2).

(** [int Dispenser::addHopper(Hopper* new_hopper)] *)
Definition addHopper (new_hopper : Hopper_ptr) : M Z :=
  d <- this ;;
  addHopper_at new_hopper (size d).

(** [void Dispenser::removeHopper(int index)] *)
Definition removeHopper_at (index : Z) : M unit :=
  d <- this ;;
  k <- int_mod index (size d) ;;
  vector_erase k.

(** [void Dispenser::removeHopper(Hopper* hopper)] *)
Definition removeHopper (hopper : Hopper_ptr) : M unit :=
  d <- this ;;
  let position := CInt.narrow (find_distance (hoppers d) hopper) in
  removeHopper_at position.

(** ** Predicates on the object and on outcomes *)

(** The cached [size] is the number of elements of [hoppers]. *)
Definition size_inv (d : Dispenser) : Prop :=
  size d = Z.of_nat (length (hoppers d)).

(** The call left the function with the "no hoppers" [out_of_range]
    (the EmptyCollection failure). *)
Definition raises_EmptyCollection {A : Type} (r : result A) : Prop :=
  match r with
  | Throw e _ _ => e = no_hoppers
  | Ok _ _ _ | Undefined _ => False
  end.

(** The public operations, and the outcome of calling one with its return
    value forgotten. *)
Inductive operation : Type :=
| GetCurrentIndex
| GetSize
| GetHopperAt (index : Z)
| GetHopper
| SetCurrentIndex (new_index : Z)
| NextIndex
| OpenDispenser
| CloseDispenser
| AddHopper (new_hopper : Hopper_ptr)
| AddHopperAt (new_hopper : Hopper_ptr) (index : Z)
| RemoveHopperAt (index : Z)
| RemoveHopper (hopper : Hopper_ptr).

Inductive outcome : Type :=
| Returned (d : Dispenser) (w : list servo_write)
| Raised (e : exception) (d : Dispenser) (w : list servo_write)
| Undef (u : undefined_behaviour).

Definition forget {A : Type} (r : result A) : outcome :=
  match r with
  | Ok _ d w => Returned d w
  | Throw e d w => Raised e d w
  | Undefined u => Undef u
  end.

Definition call (o : operation) (d : Dispenser) : outcome :=
  match o with
  | GetCurrentIndex => forget (getCurrentIndex d)
  | GetSize => forget (getSize d)
  | GetHopperAt index => forget (getHopper_at index d)
  | GetHopper => forget (getHopper d)
  | SetCurrentIndex new_index => forget (setCurrentIndex new_index d)
  | NextIndex => forget (nextIndex d)
  | OpenDispenser => forget (openDispenser d)
  | CloseDispenser => forget (closeDispenser d)
  | AddHopper h => forget (addHopper h d)
  | AddHopperAt h index => forget (addHopper_at h index d)
  | RemoveHopperAt index => forget (removeHopper_at index d)
  | RemoveHopper h => forget (removeHopper h d)
  end.

(** The object an outcome ends in, when there is one. *)
Definition final_state (r : outcome) : option Dispenser :=
  match r with
  | Returned d _ | Raised _ d _ => Some d
  | Undef _ => None
  end.

Definition is_removal (o : operation) : bool :=
  match o with
  | RemoveHopperAt _ | RemoveHopper _ => true
  | _ => false
  end.

(** A registry of three hoppers, at addresses 10, 20 and 30. *)
Definition three_hoppers : Dispenser :=
  {| hoppers := [10%N; 20%N; 30%N]; size := 3; current_index := 0 |}.

(** [three_hoppers] after [removeHopper(0)]. *)
Definition after_removal : Dispenser :=
  {| hoppers := [20%N; 30%N]; size := 3; current_index := 0 |}.

(** A registry of one hopper, and what [removeHopper(0)] leaves of it:
    no hopper, and a [size] of 1. *)
Definition one_hopper : Dispenser :=
  {| hoppers := [10%N]; size := 1; current_index := 0 |}.

Definition after_last_removal : Dispenser :=
  {| hoppers := []; size := 1; current_index := 0 |}.

(** The same registry with the selection on the multicoloured light. *)
Definition three_hoppers_at_4 : Dispenser :=
  {| hoppers := [10%N; 20%N; 30%N]; size := 3; current_index := 4 |}.

(** [h] was put into [v] at some position, the other elements keeping
    their places relative to each other. *)
Definition inserted (h : Hopper_ptr) (v v' : list Hopper_ptr) : Prop :=
  exists k : nat, (k <= length v)%nat /\ v' = take k v ++ h :: drop k v.

(** What the append form is expected to do with [h] on [d]: return
    normally, with [size] one larger and [h] found at [size - 1]. *)
Definition append_ok (h : Hopper_ptr) (d : Dispenser) : Prop :=
  exists i d',
    addHopper h d = Ok i d' [] /\
    size d' = size d + 1 /\
    getHopper_at (size d' - 1) d' = Ok h d' [].

(** The selection is a position of the registry. *)
Definition index_inv (d : Dispenser) : Prop :=
  0 <= current_index d < size d.

(** [n] calls of [nextIndex()] in a row, the returned ids dropped. *)
Fixpoint nextIndex_times (n : nat) : M unit :=
  match n with
  | O => ret tt
  | S n' => nextIndex ;; nextIndex_times n'
  end.

(** A caller that makes the calls [os] one after the other, catching
    the exception of a call that throws and going on with the next;
    [None] once a call has undefined behaviour. *)
Fixpoint call_all (os : list operation) (d : Dispenser) : option Dispenser :=
  match os with
  | [] => Some d
  | o :: os' =>
      match final_state (call o d) with
      | Some d1 => call_all os' d1
      | None => None
      end
  end.

(** ** Basic facts about the primitives *)

Lemma int_mod_zero (a : Z) (d : Dispenser) :
  int_mod a 0 d = Undefined DivisionByZero.
Proof. reflexivity. Qed.

Lemma int_mod_ok (a b : Z) (d : Dispenser) :
  b <> 0 -> (a <> CInt.INT_MIN \/ b <> -1) ->
  int_mod a b d = Ok (Z.rem a b) d [].
Proof.
  intros Hb Hab. unfold int_mod.
  destruct (Z.eqb_spec b 0) as [|_]; [contradiction|].
  destruct (Z.eqb_spec a CInt.INT_MIN) as [Ha|_]; [|reflexivity].
  destruct (Z.eqb_spec b (-1)) as [Hb1|_]; [|reflexivity].
  destruct Hab; contradiction.
Qed.

Lemma int_mod_not_DivisionByZero (a b : Z) (d : Dispenser) :
  b <> 0 -> int_mod a b d <> Undefined DivisionByZero.
Proof.
  intros Hb. unfold int_mod.
  destruct (Z.eqb_spec b 0) as [|_]; [contradiction|].
  destruct ((a =? CInt.INT_MIN) && (b =? -1))%bool; discriminate.
Qed.

Lemma int_mod_cases (a b : Z) (d : Dispenser) :
  (exists u, int_mod a b d = Undefined u) \/ int_mod a b d = Ok (Z.rem a b) d [].
Proof.
  unfold int_mod. destruct (b =? 0); [left; eauto|].
  destruct ((a =? CInt.INT_MIN) && (b =? -1))%bool; [left; eauto|right; reflexivity].
Qed.

Lemma int_add_ok (a b : Z) (d : Dispenser) :
  CInt.in_range (a + b) -> int_add a b d = Ok (a + b) d [].
Proof.
  intros [Hlo Hhi]. unfold int_add, CInt.in_rangeb.
  destruct (Z.leb_spec CInt.INT_MIN (a + b)); [|lia].
  destruct (Z.leb_spec (a + b) CInt.INT_MAX); [reflexivity|lia].
Qed.

Lemma int_add_cases (a b : Z) (d : Dispenser) :
  int_add a b d = Undefined SignedOverflow \/ int_add a b d = Ok (a + b) d [].
Proof.
  unfold int_add. destruct (CInt.in_rangeb (a + b)); [right|left]; reflexivity.
Qed.

Lemma for_loop_writes (value : Z) (n : nat) (i : Z) (d : Dispenser) :
  for_loop n i (fun j => softServoWrite j value) d
  = Ok tt d ((fun j => (j, value)) <$> seqZ i (Z.of_nat n)).
Proof.
  revert i. induction n as [|n IH]; intros i.
  - reflexivity.
  - cbn [for_loop]. unfold bind at 1. cbn [softServoWrite].
    rewrite IH, Nat2Z.inj_succ.
    rewrite (seqZ_cons i (Z.succ (Z.of_nat n))) by lia.
    rewrite Z.pred_succ. reflexivity.
Qed.

Lemma find_distance_absent (v : list Hopper_ptr) (h : Hopper_ptr) :
  h ∉ v -> find_distance v h = Z.of_nat (length v).
Proof.
  induction v as [|x v IH]; intros Hnot.
  - reflexivity.
  - apply not_elem_of_cons in Hnot as [Hne Hv].
    cbn [find_distance length].
    destruct (N.eqb_spec x h) as [->|_]; [contradiction|].
    rewrite IH by assumption. lia.
Qed.

Lemma narrow_in_range (z : Z) : CInt.in_range z -> CInt.narrow z = z.
Proof.
  unfold CInt.in_range, CInt.INT_MIN, CInt.INT_MAX, CInt.narrow.
  intros H. rewrite Z.mod_small by lia. lia.
Qed.

(** ** The emptiness guard *)

Arguments int_mod : simpl never.
Arguments int_add : simpl never.
Arguments for_loop : simpl never.

(** Unfolds one member function down to the primitives. *)
Ltac unfold_member :=
  unfold getCurrentIndex, getSize, getHopper, getHopper_at, setCurrentIndex,
    nextIndex, openDispenser, closeDispenser, addHopper, addHopper_at,
    removeHopper, removeHopper_at, incr_size, push_back, vector_insert,
    vector_erase, vector_at, set_hoppers, set_size, set_current_index,
    throw, undefined, ret, this, bind.

(** Case analysis on the next primitive whose result is not yet known. *)
Ltac member_step :=
  match goal with
  | |- context [int_mod ?a ?b ?d] =>
      destruct (int_mod_cases a b d) as [[? ->] | ->]
  | |- context [int_add ?a ?b ?d] =>
      destruct (int_add_cases a b d) as [-> | ->]
  | |- context [for_loop ?n ?i (fun j => softServoWrite j ?v) ?d] =>
      rewrite (for_loop_writes v n i d)
  | |- context [if ?a =? ?b then _ else _] => destruct (Z.eqb_spec a b)
  | |- context [if ?c then _ else _] => destruct c eqn:?
  | |- context [match ?v !! ?k with _ => _ end] => destruct (v !! k) eqn:?
  end; cbn.

Ltac member_cases := unfold_member; cbn; repeat member_step.

Section Guard.

Variable d : Dispenser.

Section Empty.

Hypothesis Hempty : size d = 0.

Lemma getHopper_at_empty (index : Z) :
  getHopper_at index d = Throw no_hoppers d [].
Proof. unfold_member. rewrite Hempty. reflexivity. Qed.

Lemma getHopper_empty : getHopper d = Throw no_hoppers d [].
Proof. unfold_member. rewrite Hempty. reflexivity. Qed.

Lemma setCurrentIndex_empty (new_index : Z) :
  setCurrentIndex new_index d = Throw no_hoppers d [].
Proof. unfold_member. rewrite Hempty. reflexivity. Qed.

Lemma nextIndex_empty : nextIndex d = Throw no_hoppers d [].
Proof. unfold_member. rewrite Hempty. reflexivity. Qed.

Lemma openDispenser_empty : openDispenser d = Throw no_hoppers d [].
Proof. unfold_member. rewrite Hempty. reflexivity. Qed.

Lemma closeDispenser_empty : closeDispenser d = Throw no_hoppers d [].
Proof. unfold_member. rewrite Hempty. reflexivity. Qed.

Lemma addHopper_at_empty (h : Hopper_ptr) (index : Z) :
  addHopper_at h index d = Throw no_hoppers d [].
Proof. unfold_member. rewrite Hempty. reflexivity. Qed.

Lemma addHopper_empty (h : Hopper_ptr) :
  addHopper h d = Throw no_hoppers d [].
Proof. unfold_member. rewrite Hempty. reflexivity. Qed.

End Empty.

Section NonEmpty.

Hypothesis Hsize : size d <> 0.

Lemma getHopper_at_nonempty (index : Z) :
  ~ raises_EmptyCollection (getHopper_at index d).
Proof. member_cases; auto; contradiction. Qed.

Lemma getHopper_nonempty : ~ raises_EmptyCollection (getHopper d).
Proof. member_cases; auto; contradiction. Qed.

Lemma setCurrentIndex_nonempty (new_index : Z) :
  ~ raises_EmptyCollection (setCurrentIndex new_index d).
Proof. member_cases; auto; contradiction. Qed.

Lemma nextIndex_nonempty : ~ raises_EmptyCollection (nextIndex d).
Proof. member_cases; auto; contradiction. Qed.

Lemma openDispenser_nonempty : ~ raises_EmptyCollection (openDispenser d).
Proof. member_cases; auto; contradiction. Qed.

Lemma closeDispenser_nonempty : ~ raises_EmptyCollection (closeDispenser d).
Proof. member_cases; auto; contradiction. Qed.

Lemma addHopper_at_nonempty (h : Hopper_ptr) (index : Z) :
  ~ raises_EmptyCollection (addHopper_at h index d).
Proof. member_cases; auto; contradiction. Qed.

End NonEmpty.

End Guard.

Lemma size_inv_empty_iff (d : Dispenser) :
  size_inv d -> (size d = 0 <-> hoppers d = []).
Proof.
  unfold size_inv. intros ->. destruct (hoppers d); cbn [length]; split;
    intros H; try reflexivity; try discriminate; lia.
Qed.

Lemma three_hoppers_size_inv : size_inv three_hoppers.
Proof. reflexivity. Qed.

Lemma Dispenser_new_size_inv : size_inv Dispenser_new.
Proof. reflexivity. Qed.

(** ** The scenarios of the documentation, on the registry of three *)

Example getHopper_at_wraps :
  getHopper_at 0 three_hoppers = Ok 10%N three_hoppers [] /\
  getHopper_at 3 three_hoppers = Ok 10%N three_hoppers [].
Proof. split; reflexivity. Qed.

Example setCurrentIndex_5 :
  setCurrentIndex 5 three_hoppers
  = Ok 2 (mkDispenser [10%N; 20%N; 30%N] 3 2) [] /\
  getHopper (mkDispenser [10%N; 20%N; 30%N] 3 2)
  = Ok 30%N (mkDispenser [10%N; 20%N; 30%N] 3 2) [].
Proof. split; reflexivity. Qed.

Example nextIndex_from_last :
  nextIndex (mkDispenser [10%N; 20%N; 30%N] 3 2) = Ok 0 three_hoppers [].
Proof. reflexivity. Qed.

Example addHopper_at_front_and_middle :
  addHopper_at 7%N 4 three_hoppers
  = Ok 0 (mkDispenser [7%N; 10%N; 20%N; 30%N] 4 0) [] /\
  addHopper_at 7%N 5 three_hoppers
  = Ok 1 (mkDispenser [10%N; 7%N; 20%N; 30%N] 4 0) [].
Proof. split; reflexivity. Qed.

Example removeHopper_by_handle :
  removeHopper 20%N three_hoppers
  = Ok tt (mkDispenser [10%N; 30%N] 3 0) [].
Proof. reflexivity. Qed.

Example removeHopper_at_on_new :
  removeHopper_at 0 Dispenser_new = Undefined DivisionByZero.
Proof. reflexivity. Qed.

(** ** Claims about the guard *)

(** The guard, for all seven guarded functions and every object: the
    "no hoppers" [out_of_range] is thrown when, and only when, the
    cached [size] is 0. *)
Lemma EmptyCollection_iff_size_zero
    (d : Dispenser) (h : Hopper_ptr) (index : Z) :
  (raises_EmptyCollection (getHopper_at index d) <-> size d = 0) /\
  (raises_EmptyCollection (getHopper d) <-> size d = 0) /\
  (raises_EmptyCollection (setCurrentIndex index d) <-> size d = 0) /\
  (raises_EmptyCollection (nextIndex d) <-> size d = 0) /\
  (raises_EmptyCollection (openDispenser d) <-> size d = 0) /\
  (raises_EmptyCollection (closeDispenser d) <-> size d = 0) /\
  (raises_EmptyCollection (addHopper_at h index d) <-> size d = 0).
Proof.
  destruct (Z.eq_dec (size d) 0) as [Hz|Hnz].
  - rewrite getHopper_at_empty, getHopper_empty, setCurrentIndex_empty,
      nextIndex_empty, openDispenser_empty, closeDispenser_empty,
      addHopper_at_empty by assumption.
    cbn [raises_EmptyCollection]. tauto.
  - pose proof (getHopper_at_nonempty d Hnz index).
    pose proof (getHopper_nonempty d Hnz).
    pose proof (setCurrentIndex_nonempty d Hnz index).
    pose proof (nextIndex_nonempty d Hnz).
    pose proof (openDispenser_nonempty d Hnz).
    pose proof (closeDispenser_nonempty d Hnz).
    pose proof (addHopper_at_nonempty d Hnz h index).
    tauto.
Qed.

(** The guard on a registry whose cached size is the length of its
    sequence: each of [getHopper(int)], [getHopper()],
    [setCurrentIndex], [nextIndex], [openDispenser], [closeDispenser]
    and [addHopper(Hopper*, int)] throws the "no hoppers" [out_of_range]
    when, and only when, the sequence holds no hopper. *)
Theorem EmptyCollection_iff_no_hoppers
    (d : Dispenser) (h : Hopper_ptr) (index : Z) :
  size_inv d ->
  (raises_EmptyCollection (getHopper_at index d) <-> hoppers d = []) /\
  (raises_EmptyCollection (getHopper d) <-> hoppers d = []) /\
  (raises_EmptyCollection (setCurrentIndex index d) <-> hoppers d = []) /\
  (raises_EmptyCollection (nextIndex d) <-> hoppers d = []) /\
  (raises_EmptyCollection (openDispenser d) <-> hoppers d = []) /\
  (raises_EmptyCollection (closeDispenser d) <-> hoppers d = []) /\
  (raises_EmptyCollection (addHopper_at h index d) <-> hoppers d = []).
Proof.
  intros Hinv. pose proof (size_inv_empty_iff d Hinv) as Hiff.
  destruct (Z.eq_dec (size d) 0) as [Hz|Hnz].
  - rewrite getHopper_at_empty, getHopper_empty, setCurrentIndex_empty,
      nextIndex_empty, openDispenser_empty, closeDispenser_empty,
      addHopper_at_empty by assumption.
    cbn [raises_EmptyCollection]. tauto.
  - pose proof (getHopper_at_nonempty d Hnz index).
    pose proof (getHopper_nonempty d Hnz).
    pose proof (setCurrentIndex_nonempty d Hnz index).
    pose proof (nextIndex_nonempty d Hnz).
    pose proof (openDispenser_nonempty d Hnz).
    pose proof (closeDispenser_nonempty d Hnz).
    pose proof (addHopper_at_nonempty d Hnz h index).
    tauto.
Qed.

Lemma EmptyCollection_iff_no_hoppers_witness :
  size_inv Dispenser_new /\
  (raises_EmptyCollection (nextIndex Dispenser_new)
   <-> hoppers Dispenser_new = []).
Proof.
  split; [reflexivity|].
  apply (EmptyCollection_iff_no_hoppers Dispenser_new 7%N 0). reflexivity.
Defined.

(** C4. The guard reads the cached [size], which [removeHopper] does
    not keep: [removeHopper(0)] on the registry of one hopper, whose
    [size] is its length, leaves a registry that holds no hopper and has
    [size] 1, and on it none of the seven guarded functions throws.
    [getHopper(0)] and [getHopper()] subscript the empty vector, the
    others return. *)
Theorem no_hoppers_without_EmptyCollection :
  size_inv one_hopper /\
  removeHopper_at 0 one_hopper = Ok tt after_last_removal [] /\
  hoppers after_last_removal = [] /\
  getHopper_at 0 after_last_removal = Undefined OutOfBounds /\
  getHopper after_last_removal = Undefined OutOfBounds /\
  setCurrentIndex 0 after_last_removal = Ok 0 after_last_removal [] /\
  nextIndex after_last_removal = Ok 0 after_last_removal [] /\
  openDispenser after_last_removal = Ok tt after_last_removal [(5, 60)] /\
  closeDispenser after_last_removal = Ok tt after_last_removal [(5, 0)] /\
  addHopper_at 7%N 0 after_last_removal = Ok 0 (mkDispenser [7%N] 2 0) [].
Proof. repeat split. Qed.

(** C5. [removeHopper(int)] has no guard: it never throws, and its
    [index % this->size] divides by zero exactly when [size == 0]. *)
Theorem removeHopper_at_DivisionByZero_iff (d : Dispenser) (index : Z) :
  (removeHopper_at index d = Undefined DivisionByZero <-> size d = 0) /\
  (forall e d' w, removeHopper_at index d <> Throw e d' w).
Proof.
  split.
  - split.
    + intros H. destruct (Z.eq_dec (size d) 0) as [|Hnz]; [assumption|].
      exfalso. revert H. unfold removeHopper_at, bind at 1, this.
      unfold bind. pose proof (int_mod_not_DivisionByZero index _ d Hnz) as Hm.
      destruct (int_mod index (size d) d) as [k d1 w1| |u]; [|discriminate|congruence].
      unfold_member. destruct (_ || _)%bool; discriminate.
    + intros Hz. unfold removeHopper_at, bind, this. rewrite Hz. reflexivity.
  - intros e d' w. member_cases; discriminate.
Qed.

(** ** Actuation *)

(** C7. On a registry with [size != 0]: at [current_index == 4],
    [openDispenser] writes the value 60 to each of the pins
    [0 .. size-1], in that order, and [closeDispenser] writes 0 to the
    same pins; at any other [current_index] (with [current_index + 5]
    an [int]) each issues exactly one write, to pin [current_index + 5],
    of 60 and of 0.  Neither changes the object. *)
Theorem open_close_signals (d : Dispenser) :
  size d <> 0 ->
  (current_index d = 4 ->
     openDispenser d = Ok tt d ((fun i => (i, 60)) <$> seqZ 0 (size d)) /\
     closeDispenser d = Ok tt d ((fun i => (i, 0)) <$> seqZ 0 (size d))) /\
  (current_index d <> 4 -> CInt.in_range (current_index d + 5) ->
     openDispenser d = Ok tt d [(current_index d + 5, 60)] /\
     closeDispenser d = Ok tt d [(current_index d + 5, 0)]).
Proof.
  intros Hnz.
  assert (Hseq : seqZ 0 (Z.of_nat (Z.to_nat (size d))) = seqZ 0 (size d)).
  { unfold seqZ. rewrite Nat2Z.id. reflexivity. }
  split.
  - intros Hcur. unfold openDispenser, closeDispenser, bind, this.
    destruct (Z.eqb_spec (size d) 0) as [|_]; [contradiction|].
    destruct (Z.eqb_spec (current_index d) 4) as [_|]; [|contradiction].
    rewrite !for_loop_writes, Hseq. split; reflexivity.
  - intros Hcur Hrange. unfold openDispenser, closeDispenser, bind, this.
    destruct (Z.eqb_spec (size d) 0) as [|_]; [contradiction|].
    destruct (Z.eqb_spec (current_index d) 4) as [|_]; [contradiction|].
    rewrite (int_add_ok _ _ d Hrange). split; reflexivity.
Qed.

Lemma open_close_signals_witness :
  (openDispenser three_hoppers = Ok tt three_hoppers [(5, 60)] /\
   closeDispenser three_hoppers = Ok tt three_hoppers [(5, 0)]) /\
  (openDispenser three_hoppers_at_4
   = Ok tt three_hoppers_at_4 [(0, 60); (1, 60); (2, 60)] /\
   closeDispenser three_hoppers_at_4
   = Ok tt three_hoppers_at_4 [(0, 0); (1, 0); (2, 0)]).
Proof.
  split.
  - apply (open_close_signals three_hoppers).
    + discriminate.
    + discriminate.
    + unfold CInt.in_range, CInt.INT_MIN, CInt.INT_MAX. cbn. lia.
  - apply (open_close_signals three_hoppers_at_4).
    + discriminate.
    + reflexivity.
Defined.

(** ** Exceptions leave the object untouched *)

Lemma raised_unchanged (o : operation) (d d' : Dispenser)
    (e : exception) (w : list servo_write) :
  call o d = Raised e d' w -> e = no_hoppers /\ d' = d /\ w = [].
Proof.
  destruct o; cbn [call]; member_cases; intros H;
    try discriminate H; inversion H; auto.
Qed.

Lemma addHopper_at_all_or_nothing
    (h : Hopper_ptr) (index : Z) (d d' : Dispenser) :
  final_state (forget (addHopper_at h index d)) = Some d' ->
  d' = d \/
  (size d' = size d + 1 /\ current_index d' = current_index d /\
   inserted h (hoppers d) (hoppers d')).
Proof.
  member_cases; intros H; try discriminate H; inversion H; subst; auto; right; cbn.
  all: repeat split; auto.
  - exists (length (hoppers d)). split; [lia|].
    rewrite take_ge, drop_ge by lia. reflexivity.
  - match goal with Hb : (_ || _)%bool = false |- _ =>
      apply orb_false_elim in Hb as [Hlo Hhi] end.
    apply Z.ltb_ge in Hlo, Hhi.
    eexists. split; [|reflexivity]. lia.
Qed.

(** C8. An operation that throws gives the "no hoppers" [out_of_range],
    leaves [hoppers], [size] and [current_index] as they were and has
    written to no servo; and when [addHopper(Hopper*, int)] ends in a
    defined state, that state is either the one before the call or the
    one with [size] incremented and the hopper inserted in the sequence. *)
Theorem EmptyCollection_leaves_state
    (o : operation) (h : Hopper_ptr) (index : Z) (d d1 d2 : Dispenser)
    (e : exception) (w : list servo_write) :
  (call o d = Raised e d1 w -> e = no_hoppers /\ d1 = d /\ w = []) /\
  (final_state (call (AddHopperAt h index) d) = Some d2 ->
   d2 = d \/
   (size d2 = size d + 1 /\ current_index d2 = current_index d /\
    inserted h (hoppers d) (hoppers d2))).
Proof.
  split.
  - apply raised_unchanged.
  - apply addHopper_at_all_or_nothing.
Qed.

Lemma EmptyCollection_leaves_state_witness :
  (no_hoppers = no_hoppers /\ Dispenser_new = Dispenser_new /\ @nil servo_write = []) /\
  size (mkDispenser [10%N; 7%N; 20%N; 30%N] 4 0) = size three_hoppers + 1.
Proof.
  split.
  - apply (proj1 (EmptyCollection_leaves_state (SetCurrentIndex 5) 7%N 0
                    Dispenser_new Dispenser_new Dispenser_new no_hoppers [])).
    reflexivity.
  - destruct (proj2 (EmptyCollection_leaves_state NextIndex 7%N 5
                       three_hoppers three_hoppers
                       (mkDispenser [10%N; 7%N; 20%N; 30%N] 4 0) no_hoppers [])
                eq_refl) as [Heq | [Hsize _]].
    + discriminate Heq.
    + exact Hsize.
Defined.

(** ** Removal by handle *)

(** On a non-empty registry whose cached size is the length of its
    sequence, removing a handle that does not occur in it erases the
    element at index 0: the search ends at [end()], at distance [size]
    from [begin()], [size % size] is 0, and the call does what
    [removeHopper(0)] does. *)
Theorem removeHopper_absent_erases_first (d : Dispenser) (h : Hopper_ptr) :
  size_inv d -> size d <> 0 -> CInt.in_range (size d) -> h ∉ hoppers d ->
  find_distance (hoppers d) h = size d /\
  int_mod (size d) (size d) d = Ok 0 d [] /\
  removeHopper h d = removeHopper_at 0 d /\
  exists d', removeHopper h d = Ok tt d' [] /\ hoppers d' = drop 1 (hoppers d).
Proof.
  intros Hinv Hnz Hrange Hnot.
  assert (Hdist : find_distance (hoppers d) h = size d).
  { rewrite find_distance_absent by assumption. symmetry. exact Hinv. }
  assert (Hpos : 0 < size d) by (unfold size_inv in Hinv; lia).
  assert (Hmod : int_mod (size d) (size d) d = Ok 0 d []).
  { rewrite int_mod_ok by lia. rewrite Z.rem_same by assumption. reflexivity. }
  assert (Hmod0 : int_mod 0 (size d) d = Ok 0 d []).
  { rewrite int_mod_ok by lia. rewrite Z.rem_0_l by assumption. reflexivity. }
  assert (Hlen : (Z.of_nat (length (hoppers d)) <=? 0) = false).
  { apply Z.leb_gt. unfold size_inv in Hinv. lia. }
  assert (Hrun : removeHopper h d
                 = Ok tt (mkDispenser (drop 1 (hoppers d)) (size d) (current_index d)) []).
  { unfold removeHopper, bind at 1, this. cbn zeta.
    rewrite Hdist, narrow_in_range by assumption.
    unfold removeHopper_at, bind at 1, this. unfold bind at 1. rewrite Hmod.
    unfold vector_erase, bind, this, set_hoppers. cbn. rewrite Hlen.
    destruct (hoppers d); reflexivity. }
  repeat split; try assumption.
  - rewrite Hrun. unfold removeHopper_at, bind at 1, this. unfold bind at 1.
    rewrite Hmod0. unfold vector_erase, bind, this, set_hoppers. cbn.
    rewrite Hlen. destruct (hoppers d); reflexivity.
  - eexists. split; [exact Hrun | reflexivity].
Qed.

Lemma removeHopper_absent_erases_first_witness :
  exists d', removeHopper 99%N three_hoppers = Ok tt d' [] /\
             hoppers d' = [20%N; 30%N].
Proof.
  apply (removeHopper_absent_erases_first three_hoppers 99%N).
  - reflexivity.
  - discriminate.
  - unfold CInt.in_range, CInt.INT_MIN, CInt.INT_MAX. cbn. lia.
  - intros Hin. repeat (apply elem_of_cons in Hin as [Hin | Hin]; [discriminate Hin|]).
    inversion Hin.
Defined.

(** C10. After [removeHopper(0)] on the registry of three, two hoppers
    remain and [size] is still 3.  The search for a handle that is not
    among them ends at [end()], at distance 2 and not [size] from
    [begin()]; [2 % 3] is 2, and [removeHopper(hopper)] erases at
    [begin() + 2], which is [end()], not the element at index 0. *)
Theorem removeHopper_absent_after_removal :
  removeHopper_at 0 three_hoppers = Ok tt after_removal [] /\
  hoppers after_removal = [20%N; 30%N] /\
  size after_removal = 3 /\
  find_distance (hoppers after_removal) 99%N = 2 /\
  int_mod 2 (size after_removal) after_removal = Ok 2 after_removal [] /\
  removeHopper 99%N after_removal = Undefined OutOfBounds.
Proof. repeat split. Qed.

(** ** Appending *)

(** C3, at the freshly constructed registry: [addHopper(h)] goes through
    the guard of [addHopper(h, size)] and throws, so it does not append. *)
Lemma addHopper_on_empty_throws :
  addHopper 7%N Dispenser_new = Throw no_hoppers Dispenser_new [] /\
  ~ append_ok 7%N Dispenser_new.
Proof.
  split; [reflexivity|].
  intros (i & d' & Hadd & _). discriminate Hadd.
Qed.

(** C3, amended. On every registry with [size != 0] whose cached size is
    the length of its sequence and below [INT_MAX], [addHopper(h)]
    returns normally, [size] grows by exactly 1 and [getHopper(size - 1)]
    is then [h]. *)
Theorem addHopper_appends (d : Dispenser) (h : Hopper_ptr) :
  size_inv d -> size d <> 0 -> size d < CInt.INT_MAX ->
  append_ok h d.
Proof.
  intros Hinv Hnz Hmax.
  assert (Hpos : 0 < size d) by (unfold size_inv in Hinv; lia).
  assert (Hadd1 : forall d0, int_add (size d) 1 d0 = Ok (size d + 1) d0 []).
  { intros d0. apply int_add_ok.
    unfold CInt.in_range, CInt.INT_MIN, CInt.INT_MAX in *. lia. }
  assert (Hmod : forall d0, int_mod (size d) (size d + 1) d0 = Ok (size d) d0 []).
  { intros d0. rewrite int_mod_ok by lia. rewrite Z.rem_small by lia. reflexivity. }
  exists (size d), (mkDispenser (hoppers d ++ [h]) (size d + 1) (current_index d)).
  split; [|split].
  - unfold_member. cbn.
    destruct (Z.eqb_spec (size d) 0) as [|_]; [contradiction|].
    rewrite Z.eqb_refl. cbn. rewrite Hadd1. cbn. rewrite Hmod. reflexivity.
  - reflexivity.
  - cbn [size]. replace (size d + 1 - 1) with (size d) by lia.
    unfold_member. cbn.
    destruct (Z.eqb_spec (size d + 1) 0) as [|_]; [lia|].
    rewrite Hmod.
    destruct (Z.ltb_spec (size d) 0) as [|_]; [lia|].
    replace (Z.to_nat (size d)) with (length (hoppers d))
      by (unfold size_inv in Hinv; lia).
    rewrite list_lookup_middle by reflexivity. reflexivity.
Qed.

Lemma addHopper_appends_witness : append_ok 7%N three_hoppers.
Proof.
  apply (addHopper_appends three_hoppers 7%N).
  - reflexivity.
  - discriminate.
  - reflexivity.
Defined.

(** ** Removal and the cached size *)

(** What a returning [removeHopper(int)] has done: one element is gone
    from the sequence, the others are in their former order, and neither
    [size] nor [current_index] has been written. *)
Lemma removeHopper_at_effect (index : Z) (d d' : Dispenser) (w : list servo_write) :
  removeHopper_at index d = Ok tt d' w ->
  w = [] /\ size d' = size d /\ current_index d' = current_index d /\
  hoppers d' = delete (Z.to_nat (Z.rem index (size d))) (hoppers d) /\
  0 <= Z.rem index (size d) < Z.of_nat (length (hoppers d)).
Proof.
  member_cases; intros H; try discriminate H.
  inversion H; subst; clear H. cbn.
  match goal with Hb : (_ || _)%bool = false |- _ =>
    apply orb_false_elim in Hb as [Hlo Hhi] end.
  apply Z.ltb_ge in Hlo. apply Z.leb_gt in Hhi. repeat split; auto.
Qed.

Lemma removeHopper_at_order (index : Z) (d d' : Dispenser) (w : list servo_write) :
  removeHopper_at index d = Ok tt d' w ->
  sublist (hoppers d') (hoppers d) /\
  S (length (hoppers d')) = length (hoppers d).
Proof.
  intros H. apply removeHopper_at_effect in H as (_ & _ & _ & -> & Hk).
  split; [apply sublist_delete|].
  rewrite length_delete.
  - lia.
  - apply lookup_lt_is_Some. lia.
Qed.

Lemma removeHopper_at_breaks_size_inv
    (index : Z) (d d' : Dispenser) (w : list servo_write) :
  size_inv d -> removeHopper_at index d = Ok tt d' w -> ~ size_inv d'.
Proof.
  unfold size_inv. intros Hinv H Hinv'.
  pose proof (removeHopper_at_order _ _ _ _ H) as [_ Hlen].
  apply removeHopper_at_effect in H as (_ & Hsize & _). lia.
Qed.

(** X16. Every operation other than the two removals keeps [size_inv]:
    from an object whose cached size is the length of its sequence, a
    call that returns or throws ends in such an object. *)
Lemma size_inv_kept_without_removal (o : operation) (d d' : Dispenser) :
  is_removal o = false -> size_inv d ->
  final_state (call o d) = Some d' -> size_inv d'.
Proof.
  unfold size_inv. intros Hrem Hinv.
  destruct o; try discriminate Hrem; cbn [call]; member_cases;
    intros H; try discriminate H; inversion H; subst; clear H; cbn;
    try assumption.
  all: repeat match goal with Hb : (_ || _)%bool = false |- _ =>
         apply orb_false_elim in Hb as [? ?] end.
  all: repeat match goal with Hb : (_ <? _) = false |- _ =>
         apply Z.ltb_ge in Hb end.
  all: rewrite ?length_app, ?length_cons, ?length_take, ?length_drop; cbn; lia.
Qed.

(** C1. On the registry of three hoppers, [removeHopper(0)] returns with
    the first hopper erased and the other two in order, but [getSize()]
    answers 3 after the call as it did before: the call does not
    decrease [size]. *)
Theorem removeHopper_at_keeps_size :
  removeHopper_at 0 three_hoppers = Ok tt after_removal [] /\
  getSize three_hoppers = Ok 3 three_hoppers [] /\
  getSize after_removal = Ok 3 after_removal [] /\
  hoppers after_removal = [20%N; 30%N].
Proof. repeat split. Qed.

(** C2. [size_inv] holds of the registry of three hoppers and is lost by
    either form of [removeHopper] on it: two hoppers remain, [size] is 3. *)
Theorem size_inv_lost_by_removeHopper :
  size_inv three_hoppers /\
  call (RemoveHopperAt 0) three_hoppers = Returned after_removal [] /\
  call (RemoveHopper 10%N) three_hoppers = Returned after_removal [] /\
  ~ size_inv after_removal.
Proof. repeat split. intros H. discriminate H. Qed.

(** ** Indices and the sign of [%] *)

Lemma rem_nonneg_range (a b : Z) :
  0 <= a -> 0 < b -> Z.rem a b = a mod b /\ 0 <= Z.rem a b < b.
Proof.
  intros Ha Hb. rewrite Z.rem_mod_nonneg by lia.
  split; [reflexivity|]. apply Z.mod_pos_bound. assumption.
Qed.

(** X9. On a registry with [size > 0], [setCurrentIndex] with an index
    that is not negative stores and returns [new_index mod size], a
    position of the registry, and changes nothing else. *)
Lemma setCurrentIndex_nonneg (new_index : Z) (d : Dispenser) :
  0 < size d -> 0 <= new_index ->
  setCurrentIndex new_index d
  = Ok (new_index mod size d)
       (mkDispenser (hoppers d) (size d) (new_index mod size d)) [] /\
  0 <= new_index mod size d < size d.
Proof.
  intros Hpos Hidx.
  destruct (rem_nonneg_range new_index (size d) Hidx Hpos) as [Hrem Hbound].
  split; [|rewrite <- Hrem; exact Hbound].
  unfold_member. cbn.
  destruct (Z.eqb_spec (size d) 0) as [|_]; [lia|].
  rewrite int_mod_ok by (unfold CInt.INT_MIN; lia). cbn.
  rewrite Hrem. reflexivity.
Qed.

(** X8. On a registry with [size > 0] and for indices that are not
    negative, [getHopper(int)] does not tell [i] from [i + k * size]. *)
Lemma getHopper_at_wrap_nonneg (i k : Z) (d : Dispenser) :
  0 < size d -> 0 <= i -> 0 <= i + k * size d ->
  getHopper_at i d = getHopper_at (i + k * size d) d.
Proof.
  intros Hpos Hi Hik.
  unfold_member. cbn.
  destruct (Z.eqb_spec (size d) 0) as [|_]; [lia|].
  rewrite !int_mod_ok by (unfold CInt.INT_MIN; lia).
  destruct (rem_nonneg_range i (size d) Hi Hpos) as [-> _].
  destruct (rem_nonneg_range (i + k * size d) (size d) Hik Hpos) as [-> _].
  rewrite Z.mod_add by lia. reflexivity.
Qed.

(** C6. On the registry of three hoppers, [setCurrentIndex(-1)] stores
    and returns [-1], the remainder of the truncating division, where
    [-1 mod 3] is 2: the result is not in the range from 0 to [size]. *)
Theorem setCurrentIndex_negative :
  setCurrentIndex (-1) three_hoppers
  = Ok (-1) (mkDispenser (hoppers three_hoppers) (size three_hoppers) (-1)) [] /\
  (-1) mod size three_hoppers = 2.
Proof. split; reflexivity. Qed.

(** C9. On the registry of three hoppers, [getHopper(-1)] indexes the
    vector at [-1 % 3 = -1], outside its bounds, while
    [getHopper(-1 + 1 * size)] returns the third hopper. *)
Theorem getHopper_at_negative_index :
  getHopper_at (-1) three_hoppers = Undefined OutOfBounds /\
  getHopper_at (-1 + 1 * size three_hoppers) three_hoppers
  = Ok 30%N three_hoppers [].
Proof. split; reflexivity. Qed.

(** ** Further properties of the member functions *)

Lemma int_mod_nonneg (a b : Z) (d : Dispenser) :
  0 <= a -> 0 < b -> int_mod a b d = Ok (a mod b) d [].
Proof.
  intros Ha Hb. rewrite int_mod_ok by (unfold CInt.INT_MIN; lia).
  rewrite Z.rem_mod_nonneg by lia. reflexivity.
Qed.

Lemma size_inv_pos (d : Dispenser) : size_inv d -> size d <> 0 -> 0 < size d.
Proof. unfold size_inv. lia. Qed.

Lemma nextIndex_ok (d : Dispenser) :
  index_inv d -> CInt.in_range (size d) ->
  nextIndex d
  = Ok ((current_index d + 1) mod size d)
       (mkDispenser (hoppers d) (size d) ((current_index d + 1) mod size d)) [].
Proof.
  unfold index_inv. intros Hidx Hrange.
  unfold_member. cbn.
  destruct (Z.eqb_spec (size d) 0) as [|_]; [lia|].
  rewrite int_add_ok
    by (unfold CInt.in_range, CInt.INT_MIN, CInt.INT_MAX in *; lia).
  cbn. rewrite int_mod_nonneg by lia. reflexivity.
Qed.

(** X1. With the selection on a position of the registry, [nextIndex()]
    returns and stores the next position: [current_index + 1], or 0 from
    the last position; the new selection is again a position and nothing
    else changes. *)
Theorem nextIndex_advances (d : Dispenser) :
  index_inv d -> CInt.in_range (size d) ->
  let next := if current_index d + 1 =? size d then 0 else current_index d + 1 in
  nextIndex d = Ok next (mkDispenser (hoppers d) (size d) next) [] /\
  0 <= next < size d.
Proof.
  intros Hidx Hrange next. rewrite nextIndex_ok by assumption.
  unfold index_inv in Hidx.
  assert (Hnext : (current_index d + 1) mod size d = next).
  { subst next. destruct (Z.eqb_spec (current_index d + 1) (size d)) as [->|Hne].
    - apply Z_mod_same_full.
    - apply Z.mod_small. lia. }
  rewrite Hnext. split; [reflexivity|].
  subst next. destruct (Z.eqb_spec (current_index d + 1) (size d)); lia.
Qed.

Lemma nextIndex_advances_witness :
  nextIndex (mkDispenser [10%N; 20%N; 30%N] 3 2) = Ok 0 three_hoppers [] /\
  0 <= 0 < 3.
Proof.
  apply (nextIndex_advances (mkDispenser [10%N; 20%N; 30%N] 3 2)).
  - unfold index_inv. cbn. lia.
  - unfold CInt.in_range, CInt.INT_MIN, CInt.INT_MAX. cbn. lia.
Defined.

Lemma nextIndex_times_ok (n : nat) (d : Dispenser) :
  index_inv d -> CInt.in_range (size d) ->
  nextIndex_times n d
  = Ok tt (mkDispenser (hoppers d) (size d)
             ((current_index d + Z.of_nat n) mod size d)) [].
Proof.
  revert d. induction n as [|n IH]; intros d Hidx Hrange.
  - cbn. rewrite Z.add_0_r, Z.mod_small by exact Hidx. destruct d; reflexivity.
  - cbn [nextIndex_times]. unfold bind. rewrite nextIndex_ok by assumption.
    rewrite IH.
    + cbn [hoppers size current_index app]. do 2 f_equal.
      rewrite Zplus_mod_idemp_l. f_equal. lia.
    + unfold index_inv in *. cbn. apply Z.mod_pos_bound. lia.
    + exact Hrange.
Qed.

(** X2. With the selection on a position of the registry, [size] calls
    of [nextIndex()] in a row go once round and leave the object as it
    was. *)
Theorem nextIndex_cycle (d : Dispenser) :
  index_inv d -> CInt.in_range (size d) ->
  nextIndex_times (Z.to_nat (size d)) d = Ok tt d [].
Proof.
  intros Hidx Hrange. rewrite nextIndex_times_ok by assumption.
  unfold index_inv in Hidx. rewrite Z2Nat.id by lia.
  replace (current_index d + size d) with (current_index d + 1 * size d) by lia.
  rewrite Z_mod_plus_full, Z.mod_small by lia.
  destruct d; reflexivity.
Qed.

Lemma nextIndex_cycle_witness :
  nextIndex_times 3 (mkDispenser [10%N; 20%N; 30%N] 3 1)
  = Ok tt (mkDispenser [10%N; 20%N; 30%N] 3 1) [].
Proof.
  apply (nextIndex_cycle (mkDispenser [10%N; 20%N; 30%N] 3 1)).
  - unfold index_inv. cbn. lia.
  - unfold CInt.in_range, CInt.INT_MIN, CInt.INT_MAX. cbn. lia.
Defined.

(** The sequence [v] with [h] put in at position [k]. *)
Lemma insert_at_lookup (v : list Hopper_ptr) (h : Hopper_ptr) (k : nat) :
  (k <= length v)%nat ->
  (take k v ++ h :: drop k v) !! k = Some h /\
  length (take k v ++ h :: drop k v) = S (length v) /\
  delete k (take k v ++ h :: drop k v) = v.
Proof.
  intros Hk.
  assert (Hlen : length (take k v) = k) by (apply length_take_le; exact Hk).
  split; [|split].
  - apply list_lookup_middle. symmetry. exact Hlen.
  - rewrite length_app, length_cons, Hlen, length_drop. lia.
  - rewrite <- Hlen at 1. rewrite delete_middle. apply take_drop.
Qed.

Lemma addHopper_at_ok (d : Dispenser) (h : Hopper_ptr) (index : Z) :
  size_inv d -> size d <> 0 -> size d < CInt.INT_MAX -> 0 <= index ->
  addHopper_at h index d
  = Ok (index mod (size d + 1))
       (mkDispenser
          (take (Z.to_nat (index mod (size d + 1))) (hoppers d)
           ++ h :: drop (Z.to_nat (index mod (size d + 1))) (hoppers d))
          (size d + 1) (current_index d)) [].
Proof.
  intros Hinv Hnz Hmax Hidx.
  pose proof (size_inv_pos d Hinv Hnz) as Hpos.
  assert (Hbound : 0 <= index mod (size d + 1) < size d + 1)
    by (apply Z.mod_pos_bound; lia).
  assert (Hadd1 : forall d0, int_add (size d) 1 d0 = Ok (size d + 1) d0 []).
  { intros d0. apply int_add_ok.
    unfold CInt.in_range, CInt.INT_MIN, CInt.INT_MAX in *. lia. }
  unfold_member. cbn.
  destruct (Z.eqb_spec (size d) 0) as [|_]; [contradiction|].
  destruct (Z.eqb_spec index (size d)) as [->|Hne]; cbn.
  - rewrite Hadd1. cbn. rewrite int_mod_nonneg by lia.
    rewrite (Z.mod_small (size d)) by lia.
    rewrite take_ge, drop_ge by (unfold size_inv in Hinv; lia).
    reflexivity.
  - rewrite Hadd1. cbn. rewrite !int_mod_nonneg by lia. cbn.
    destruct (Z.ltb_spec (index mod (size d + 1)) 0) as [|_]; [lia|].
    destruct (Z.ltb_spec (Z.of_nat (length (hoppers d))) (index mod (size d + 1)))
      as [|_]; [unfold size_inv in Hinv; lia|].
    cbn. rewrite int_mod_nonneg by lia. reflexivity.
Qed.

(** X3. On a non-empty registry whose cached size is the length of its
    sequence and below [INT_MAX], [addHopper(h, index)] with an index
    that is not negative returns [index mod (size + 1)], has put [h] at
    that position with the hoppers before and after it in their former
    order, has incremented [size] to the new length, and
    [getHopper] at the returned index is then [h]. *)
Theorem addHopper_at_inserts (d : Dispenser) (h : Hopper_ptr) (index : Z) :
  size_inv d -> size d <> 0 -> size d < CInt.INT_MAX -> 0 <= index ->
  exists d',
    addHopper_at h index d = Ok (index mod (size d + 1)) d' [] /\
    hoppers d' = take (Z.to_nat (index mod (size d + 1))) (hoppers d)
                 ++ h :: drop (Z.to_nat (index mod (size d + 1))) (hoppers d) /\
    size d' = size d + 1 /\
    current_index d' = current_index d /\
    size_inv d' /\
    getHopper_at (index mod (size d + 1)) d' = Ok h d' [].
Proof.
  intros Hinv Hnz Hmax Hidx.
  pose proof (size_inv_pos d Hinv Hnz) as Hpos.
  assert (Hbound : 0 <= index mod (size d + 1) < size d + 1)
    by (apply Z.mod_pos_bound; lia).
  assert (Hk : (Z.to_nat (index mod (size d + 1)) <= length (hoppers d))%nat)
    by (unfold size_inv in Hinv; lia).
  destruct (insert_at_lookup (hoppers d) h _ Hk) as (Hlook & Hlen & _).
  eexists. split; [apply addHopper_at_ok; assumption|].
  cbn [hoppers size current_index]. repeat split.
  - unfold size_inv in *. cbn [hoppers size]. rewrite Hlen. lia.
  - unfold_member. cbn.
    destruct (Z.eqb_spec (size d + 1) 0) as [|_]; [lia|].
    rewrite int_mod_nonneg by lia. rewrite Z.mod_mod by lia.
    destruct (Z.ltb_spec (index mod (size d + 1)) 0) as [|_]; [lia|].
    rewrite Hlook. reflexivity.
Qed.

Lemma addHopper_at_inserts_witness :
  exists d',
    addHopper_at 7%N 5 three_hoppers = Ok 1 d' [] /\
    hoppers d' = [10%N; 7%N; 20%N; 30%N] /\
    size d' = 4 /\
    current_index d' = 0 /\
    size_inv d' /\
    getHopper_at 1 d' = Ok 7%N d' [].
Proof.
  apply (addHopper_at_inserts three_hoppers 7%N 5).
  - reflexivity.
  - discriminate.
  - reflexivity.
  - lia.
Defined.

(** X4. Under the same conditions, [removeHopper] at the index that
    [addHopper(h, index)] returned takes [h] out again: the sequence is
    the one before the insertion, while [size] stays at the incremented
    value. *)
Theorem addHopper_at_then_removeHopper_at
    (d : Dispenser) (h : Hopper_ptr) (index : Z) :
  size_inv d -> size d <> 0 -> size d < CInt.INT_MAX -> 0 <= index ->
  (r <- addHopper_at h index ;; removeHopper_at r) d
  = Ok tt (mkDispenser (hoppers d) (size d + 1) (current_index d)) [].
Proof.
  intros Hinv Hnz Hmax Hidx.
  pose proof (size_inv_pos d Hinv Hnz) as Hpos.
  assert (Hbound : 0 <= index mod (size d + 1) < size d + 1)
    by (apply Z.mod_pos_bound; lia).
  assert (Hk : (Z.to_nat (index mod (size d + 1)) <= length (hoppers d))%nat)
    by (unfold size_inv in Hinv; lia).
  destruct (insert_at_lookup (hoppers d) h _ Hk) as (_ & Hlen & Hdel).
  unfold bind at 1. rewrite addHopper_at_ok by assumption.
  unfold_member. cbn.
  rewrite int_mod_nonneg by lia. rewrite Z.mod_mod by lia. cbn.
  destruct (Z.ltb_spec (index mod (size d + 1)) 0) as [|_]; [lia|].
  rewrite Hlen.
  destruct (Z.leb_spec (Z.of_nat (S (length (hoppers d)))) (index mod (size d + 1)))
    as [|_]; [unfold size_inv in Hinv; lia|].
  cbn. rewrite Hdel. reflexivity.
Qed.

Lemma addHopper_at_then_removeHopper_at_witness :
  (r <- addHopper_at 7%N 5 ;; removeHopper_at r) three_hoppers
  = Ok tt (mkDispenser [10%N; 20%N; 30%N] 4 0) [].
Proof.
  apply (addHopper_at_then_removeHopper_at three_hoppers 7%N 5).
  - reflexivity.
  - discriminate.
  - reflexivity.
  - lia.
Defined.

(** An instance of X16: inserting into the registry of three. *)
Lemma size_inv_kept_without_removal_witness :
  size_inv (mkDispenser [10%N; 7%N; 20%N; 30%N] 4 0).
Proof.
  apply (size_inv_kept_without_removal (AddHopperAt 7%N 5) three_hoppers).
  - reflexivity.
  - reflexivity.
  - reflexivity.
Defined.

Lemma removeHopper_at_ok (d : Dispenser) (k : Z) :
  size_inv d -> 0 <= k < size d ->
  removeHopper_at k d
  = Ok tt (mkDispenser (delete (Z.to_nat k) (hoppers d))
             (size d) (current_index d)) [].
Proof.
  intros Hinv Hk. unfold_member. cbn.
  rewrite int_mod_nonneg by lia. rewrite Z.mod_small by lia. cbn.
  destruct (Z.ltb_spec k 0) as [|_]; [lia|].
  destruct (Z.leb_spec (Z.of_nat (length (hoppers d))) k) as [|_];
    [unfold size_inv in Hinv; lia|].
  reflexivity.
Qed.

(** X5. On a non-empty registry whose cached size is the length of its
    sequence, [removeHopper(index)] with an index that is not negative
    returns, having erased exactly the hopper at [index mod size]: the
    sequence is one shorter, the other hoppers are in their former
    order, and [size] and [current_index] are as before. *)
Theorem removeHopper_at_nonneg (d : Dispenser) (index : Z) :
  size_inv d -> size d <> 0 -> 0 <= index ->
  exists d',
    removeHopper_at index d = Ok tt d' [] /\
    hoppers d' = delete (Z.to_nat (index mod size d)) (hoppers d) /\
    S (length (hoppers d')) = length (hoppers d) /\
    sublist (hoppers d') (hoppers d) /\
    size d' = size d /\
    current_index d' = current_index d.
Proof.
  intros Hinv Hnz Hidx.
  pose proof (size_inv_pos d Hinv Hnz) as Hpos.
  assert (Hbound : 0 <= index mod size d < size d)
    by (apply Z.mod_pos_bound; lia).
  exists (mkDispenser (delete (Z.to_nat (index mod size d)) (hoppers d))
            (size d) (current_index d)).
  split.
  - unfold_member. cbn. rewrite int_mod_nonneg by lia. cbn.
    destruct (Z.ltb_spec (index mod size d) 0) as [|_]; [lia|].
    destruct (Z.leb_spec (Z.of_nat (length (hoppers d))) (index mod size d))
      as [|_]; [unfold size_inv in Hinv; lia|].
    reflexivity.
  - cbn [hoppers size current_index]. repeat split.
    + rewrite length_delete.
      * unfold size_inv in Hinv. lia.
      * apply lookup_lt_is_Some. unfold size_inv in Hinv. lia.
    + apply sublist_delete.
Qed.

Lemma removeHopper_at_nonneg_witness :
  exists d',
    removeHopper_at 4 three_hoppers = Ok tt d' [] /\
    hoppers d' = [10%N; 30%N] /\
    S (length (hoppers d')) = 3%nat /\
    sublist (hoppers d') [10%N; 20%N; 30%N] /\
    size d' = 3 /\
    current_index d' = 0.
Proof.
  apply (removeHopper_at_nonneg three_hoppers 4).
  - reflexivity.
  - discriminate.
  - lia.
Defined.

Lemma find_distance_present (v : list Hopper_ptr) (h : Hopper_ptr) :
  h ∈ v ->
  exists l1 l2, v = l1 ++ h :: l2 /\ (h ∉ l1) /\
                find_distance v h = Z.of_nat (length l1).
Proof.
  induction v as [|x v IH]; intros Hin.
  - inversion Hin.
  - cbn [find_distance]. destruct (N.eqb_spec x h) as [->|Hne].
    + exists [], v. repeat split. apply not_elem_of_nil.
    + apply elem_of_cons in Hin as [Heq|Hin]; [congruence|].
      destruct (IH Hin) as (l1 & l2 & -> & Hnot & Hdist).
      exists (x :: l1), l2. repeat split.
      * apply not_elem_of_cons. split; [congruence|assumption].
      * rewrite Hdist. cbn [length]. lia.
Qed.

(** X6. On a registry whose cached size is the length of its sequence,
    [removeHopper(hopper)] with a handle that occurs in the sequence
    erases its first occurrence and nothing else: the hoppers before it,
    none of them the handle, and the hoppers after it remain in order. *)
Theorem removeHopper_first_occurrence (d : Dispenser) (h : Hopper_ptr) :
  size_inv d -> CInt.in_range (size d) -> h ∈ hoppers d ->
  exists l1 l2,
    hoppers d = l1 ++ h :: l2 /\ (h ∉ l1) /\
    removeHopper h d
    = Ok tt (mkDispenser (l1 ++ l2) (size d) (current_index d)) [].
Proof.
  intros Hinv Hrange Hin.
  destruct (find_distance_present _ _ Hin) as (l1 & l2 & Hsplit & Hnot & Hdist).
  exists l1, l2. split; [assumption|]. split; [assumption|].
  assert (Hlen : 0 <= Z.of_nat (length l1) < size d).
  { unfold size_inv in Hinv. rewrite Hinv, Hsplit, length_app. cbn [length]. lia. }
  unfold removeHopper, bind at 1, this. cbn zeta.
  rewrite Hdist, narrow_in_range
    by (unfold CInt.in_range, CInt.INT_MIN, CInt.INT_MAX in *; lia).
  unfold bind. rewrite removeHopper_at_ok by assumption.
  rewrite Nat2Z.id, Hsplit, delete_middle. reflexivity.
Qed.

Lemma removeHopper_first_occurrence_witness :
  exists l1 l2,
    [10%N; 20%N; 30%N] = l1 ++ 20%N :: l2 /\ (20%N ∉ l1) /\
    removeHopper 20%N three_hoppers = Ok tt (mkDispenser (l1 ++ l2) 3 0) [].
Proof.
  apply (removeHopper_first_occurrence three_hoppers 20%N).
  - reflexivity.
  - unfold CInt.in_range, CInt.INT_MIN, CInt.INT_MAX. cbn. lia.
  - apply list_elem_of_In. cbn. auto.
Defined.

Lemma getHopper_at_ok (d : Dispenser) (index : Z) :
  size_inv d -> size d <> 0 -> 0 <= index ->
  exists h,
    hoppers d !! Z.to_nat (index mod size d) = Some h /\
    getHopper_at index d = Ok h d [].
Proof.
  intros Hinv Hnz Hidx.
  pose proof (size_inv_pos d Hinv Hnz) as Hpos.
  assert (Hbound : 0 <= index mod size d < size d)
    by (apply Z.mod_pos_bound; lia).
  destruct (lookup_lt_is_Some_2 (hoppers d) (Z.to_nat (index mod size d)))
    as [h Hh]; [unfold size_inv in Hinv; lia|].
  exists h. split; [exact Hh|].
  unfold_member. cbn.
  destruct (Z.eqb_spec (size d) 0) as [|_]; [contradiction|].
  rewrite int_mod_nonneg by lia.
  destruct (Z.ltb_spec (index mod size d) 0) as [|_]; [lia|].
  rewrite Hh. reflexivity.
Qed.

(** X7. On a non-empty registry whose cached size is the length of its
    sequence, [getHopper(index)] with an index that is not negative
    returns the hopper at position [index mod size] of the sequence and
    changes nothing. *)
Theorem getHopper_at_nonneg (d : Dispenser) (index : Z) :
  size_inv d -> size d <> 0 -> 0 <= index ->
  exists h,
    hoppers d !! Z.to_nat (index mod size d) = Some h /\
    h ∈ hoppers d /\
    getHopper_at index d = Ok h d [].
Proof.
  intros Hinv Hnz Hidx.
  destruct (getHopper_at_ok d index Hinv Hnz Hidx) as (h & Hh & Hget).
  exists h. repeat split; try assumption.
  apply list_elem_of_lookup. eauto.
Qed.

Lemma getHopper_at_nonneg_witness :
  exists h,
    [10%N; 20%N; 30%N] !! 2%nat = Some h /\
    h ∈ [10%N; 20%N; 30%N] /\
    getHopper_at 5 three_hoppers = Ok h three_hoppers [].
Proof.
  apply (getHopper_at_nonneg three_hoppers 5).
  - reflexivity.
  - discriminate.
  - lia.
Defined.

Lemma getHopper_at_wrap_nonneg_witness :
  getHopper_at 1 three_hoppers = getHopper_at (1 + 2 * 3) three_hoppers.
Proof.
  apply (getHopper_at_wrap_nonneg 1 2 three_hoppers); cbn; lia.
Defined.

Lemma setCurrentIndex_nonneg_witness :
  setCurrentIndex 5 three_hoppers
  = Ok 2 (mkDispenser [10%N; 20%N; 30%N] 3 2) [] /\
  0 <= 2 < 3.
Proof.
  apply (setCurrentIndex_nonneg 5 three_hoppers); cbn; lia.
Defined.

(** X10. On a non-empty registry whose cached size is the length of its
    sequence, selecting with [setCurrentIndex(index)], the index not
    negative, and then asking [getHopper()] gives the hopper that
    [getHopper(index)] gives. *)
Theorem setCurrentIndex_then_getHopper (d : Dispenser) (index : Z) :
  size_inv d -> size d <> 0 -> 0 <= index ->
  exists h,
    getHopper_at index d = Ok h d [] /\
    (setCurrentIndex index ;; getHopper) d
    = Ok h (mkDispenser (hoppers d) (size d) (index mod size d)) [].
Proof.
  intros Hinv Hnz Hidx.
  pose proof (size_inv_pos d Hinv Hnz) as Hpos.
  assert (Hbound : 0 <= index mod size d < size d)
    by (apply Z.mod_pos_bound; lia).
  destruct (getHopper_at_ok d index Hinv Hnz Hidx) as (h & Hh & Hget).
  exists h. split; [exact Hget|].
  unfold_member. cbn.
  destruct (Z.eqb_spec (size d) 0) as [|_]; [contradiction|].
  rewrite int_mod_nonneg by lia. cbn.
  destruct (Z.eqb_spec (size d) 0) as [|_]; [contradiction|]. cbn.
  destruct (Z.eqb_spec (size d) 0) as [|_]; [contradiction|].
  rewrite int_mod_nonneg by lia. rewrite Z.mod_mod by lia.
  destruct (Z.ltb_spec (index mod size d) 0) as [|_]; [lia|].
  rewrite Hh. reflexivity.
Qed.

Lemma setCurrentIndex_then_getHopper_witness :
  exists h,
    getHopper_at 5 three_hoppers = Ok h three_hoppers [] /\
    (setCurrentIndex 5 ;; getHopper) three_hoppers
    = Ok h (mkDispenser [10%N; 20%N; 30%N] 3 2) [].
Proof.
  apply (setCurrentIndex_then_getHopper three_hoppers 5).
  - reflexivity.
  - discriminate.
  - lia.
Defined.

Lemma rem_negative (a b : Z) :
  a < 0 -> 0 < b -> ~ (b | a) -> - b < Z.rem a b < 0.
Proof.
  intros Ha Hb Hndiv.
  assert (Hnz : Z.rem a b <> 0).
  { intros Hz. apply Hndiv. apply Z.rem_divide; [lia|assumption]. }
  pose proof (Z.rem_bound_pos_neg a b Hb ltac:(lia)). lia.
Qed.

(** X11. On a registry with [size > 0], [getHopper(index)] with a
    negative index that is not a multiple of [size] subscripts the
    vector with the negative remainder [index % size]: the access is
    outside the vector whatever the sequence holds.  With an index that
    is a multiple of [size], negative or not, the call is
    [getHopper(0)]. *)
Theorem getHopper_at_negative (d : Dispenser) (index : Z) :
  0 < size d ->
  (index < 0 -> ~ (size d | index) ->
   getHopper_at index d = Undefined OutOfBounds) /\
  ((size d | index) -> getHopper_at index d = getHopper_at 0 d).
Proof.
  intros Hpos. split.
  - intros Hneg Hndiv.
    pose proof (rem_negative index (size d) Hneg Hpos Hndiv) as Hrem.
    unfold_member. cbn.
    destruct (Z.eqb_spec (size d) 0) as [|_]; [lia|].
    rewrite int_mod_ok by lia.
    destruct (Z.ltb_spec (Z.rem index (size d)) 0) as [_|]; [reflexivity|lia].
  - intros Hdiv. apply Z.rem_divide in Hdiv; [|lia].
    unfold_member. cbn.
    destruct (Z.eqb_spec (size d) 0) as [|_]; [lia|].
    rewrite !int_mod_ok by lia. rewrite Hdiv, Z.rem_0_l by lia. reflexivity.
Qed.

Lemma getHopper_at_negative_witness :
  getHopper_at (-4) three_hoppers = Undefined OutOfBounds /\
  getHopper_at (-6) three_hoppers = getHopper_at 0 three_hoppers.
Proof.
  destruct (getHopper_at_negative three_hoppers (-4)) as [Hout _]; [cbn; lia|].
  destruct (getHopper_at_negative three_hoppers (-6)) as [_ Hzero]; [cbn; lia|].
  split.
  - apply Hout; [lia|]. intros [q Hq]. cbn in Hq. lia.
  - apply Hzero. exists (-2). reflexivity.
Defined.

(** X12. On a registry with [size > 0], [setCurrentIndex(index)] with a
    negative index that is not a multiple of [size] returns normally
    with a negative [current_index], strictly between [-size] and 0, and
    a following [getHopper()] then subscripts the vector outside its
    bounds. *)
Theorem setCurrentIndex_negative_then_getHopper (d : Dispenser) (index : Z) :
  0 < size d -> index < 0 -> ~ (size d | index) ->
  setCurrentIndex index d
  = Ok (Z.rem index (size d))
       (mkDispenser (hoppers d) (size d) (Z.rem index (size d))) [] /\
  - size d < Z.rem index (size d) < 0 /\
  (setCurrentIndex index ;; getHopper) d = Undefined OutOfBounds.
Proof.
  intros Hpos Hneg Hndiv.
  pose proof (rem_negative index (size d) Hneg Hpos Hndiv) as Hrem.
  assert (Hrr : Z.rem (Z.rem index (size d)) (size d) = Z.rem index (size d)).
  { rewrite <- (Z.opp_involutive (Z.rem index (size d))) at 1.
    rewrite Z.rem_opp_l by lia. rewrite Z.rem_small by lia. lia. }
  split; [|split; [exact Hrem|]].
  - unfold_member. cbn.
    destruct (Z.eqb_spec (size d) 0) as [|_]; [lia|].
    rewrite int_mod_ok by lia. reflexivity.
  - unfold_member. cbn.
    destruct (Z.eqb_spec (size d) 0) as [|_]; [lia|].
    rewrite int_mod_ok by lia. cbn.
    destruct (Z.eqb_spec (size d) 0) as [|_]; [lia|]. cbn.
    destruct (Z.eqb_spec (size d) 0) as [|_]; [lia|].
    rewrite int_mod_ok by lia. rewrite Hrr.
    destruct (Z.ltb_spec (Z.rem index (size d)) 0) as [_|]; [reflexivity|lia].
Qed.

Lemma setCurrentIndex_negative_then_getHopper_witness :
  setCurrentIndex (-4) three_hoppers
  = Ok (-1) (mkDispenser [10%N; 20%N; 30%N] 3 (-1)) [] /\
  - 3 < -1 < 0 /\
  (setCurrentIndex (-4) ;; getHopper) three_hoppers = Undefined OutOfBounds.
Proof.
  apply (setCurrentIndex_negative_then_getHopper three_hoppers (-4)).
  - cbn. lia.
  - lia.
  - intros [q Hq]. cbn in Hq. lia.
Defined.

(** X13. Whenever [openDispenser()] returns, it has not changed the
    object, every value it wrote is 60, and [closeDispenser()] on the
    same object returns having written 0 to the same pins in the same
    order. *)
Theorem closeDispenser_mirrors_openDispenser
    (d d' : Dispenser) (w : list servo_write) :
  openDispenser d = Ok tt d' w ->
  d' = d /\
  Forall (fun p => p.2 = 60) w /\
  closeDispenser d = Ok tt d ((fun p => (p.1, 0)) <$> w).
Proof.
  member_cases; intros H; try discriminate H; inversion H; subst; clear H.
  - split; [reflexivity|]. split.
    + apply Forall_fmap, Forall_true. reflexivity.
    + rewrite <- list_fmap_compose. reflexivity.
  - split; [reflexivity|]. split.
    + repeat constructor.
    + reflexivity.
Qed.

Lemma closeDispenser_mirrors_openDispenser_witness :
  three_hoppers_at_4 = three_hoppers_at_4 /\
  Forall (fun p : servo_write => p.2 = 60) [(0, 60); (1, 60); (2, 60)] /\
  closeDispenser three_hoppers_at_4
  = Ok tt three_hoppers_at_4 [(0, 0); (1, 0); (2, 0)].
Proof.
  apply (closeDispenser_mirrors_openDispenser
           three_hoppers_at_4 three_hoppers_at_4 [(0, 60); (1, 60); (2, 60)]).
  reflexivity.
Defined.

Lemma call_on_empty (o : operation) (d d' : Dispenser) :
  size d = 0 -> final_state (call o d) = Some d' -> d' = d.
Proof.
  intros Hsize.
  destruct o; cbn [call]; unfold_member; cbn; rewrite ?Hsize; cbn;
    rewrite ?int_mod_zero; cbn; intros H; inversion H; reflexivity.
Qed.

(** X14. A registry with [size == 0], the freshly constructed one in
    particular, stays as it is under every sequence of calls of its
    member functions that ends in a defined state: each call either
    returns without effect, throws, or (the two removals) divides by
    zero, so no hopper can ever be added to it. *)
Theorem empty_registry_stays_empty
    (os : list operation) (d d' : Dispenser) :
  size d = 0 -> call_all os d = Some d' -> d' = d.
Proof.
  intros Hsize. induction os as [|o os IH]; cbn [call_all].
  - intros H. inversion H. reflexivity.
  - destruct (final_state (call o d)) as [d1|] eqn:Hcall; [|discriminate].
    apply call_on_empty in Hcall; [|assumption]. subst d1. exact IH.
Qed.

Lemma empty_registry_stays_empty_witness :
  call_all [AddHopper 7%N; AddHopperAt 8%N 0; SetCurrentIndex 2; GetSize]
    Dispenser_new = Some Dispenser_new /\
  Dispenser_new = Dispenser_new.
Proof.
  split; [reflexivity|].
  apply (empty_registry_stays_empty
           [AddHopper 7%N; AddHopperAt 8%N 0; SetCurrentIndex 2; GetSize]
           Dispenser_new Dispenser_new); reflexivity.
Defined.

(** X15. On a non-empty registry whose cached size is the length of its
    sequence and whose selection is the last position, a
    [removeHopper(index)], the index not negative, followed by
    [getHopper()] subscripts the vector past its end: the removal
    shortens the sequence but leaves [size] and [current_index]. *)
Theorem removeHopper_at_then_getHopper_last (d : Dispenser) (index : Z) :
  size_inv d -> size d <> 0 -> current_index d = size d - 1 -> 0 <= index ->
  (removeHopper_at index ;; getHopper) d = Undefined OutOfBounds.
Proof.
  intros Hinv Hnz Hcur Hidx.
  pose proof (size_inv_pos d Hinv Hnz) as Hpos.
  assert (Hbound : 0 <= index mod size d < size d)
    by (apply Z.mod_pos_bound; lia).
  assert (Hlen : length (delete (Z.to_nat (index mod size d)) (hoppers d))
                 = Z.to_nat (size d - 1)).
  { assert (S (length (delete (Z.to_nat (index mod size d)) (hoppers d)))
            = length (hoppers d)).
    { rewrite length_delete; [unfold size_inv in Hinv; lia|].
      apply lookup_lt_is_Some. unfold size_inv in Hinv. lia. }
    unfold size_inv in Hinv. lia. }
  unfold_member. cbn.
  rewrite int_mod_nonneg by lia. cbn.
  destruct (Z.ltb_spec (index mod size d) 0) as [|_]; [lia|].
  destruct (Z.leb_spec (Z.of_nat (length (hoppers d))) (index mod size d))
    as [|_]; [unfold size_inv in Hinv; lia|].
  cbn.
  destruct (Z.eqb_spec (size d) 0) as [|_]; [contradiction|]. cbn.
  destruct (Z.eqb_spec (size d) 0) as [|_]; [contradiction|].
  rewrite Hcur. rewrite int_mod_nonneg by lia. rewrite Z.mod_small by lia.
  destruct (Z.ltb_spec (size d - 1) 0) as [|_]; [lia|].
  rewrite (lookup_ge_None_2 _ (Z.to_nat (size d - 1))) by lia.
  reflexivity.
Qed.

Lemma removeHopper_at_then_getHopper_last_witness :
  (removeHopper_at 0 ;; getHopper) (mkDispenser [10%N; 20%N; 30%N] 3 2)
  = Undefined OutOfBounds.
Proof.
  apply (removeHopper_at_then_getHopper_last (mkDispenser [10%N; 20%N; 30%N] 3 2) 0).
  - reflexivity.
  - discriminate.
  - reflexivity.
  - lia.
Defined.
